(** * Enrollmate: the scheduler migration runner

    A shallow embedding of [src/migrations/apply-migration.js]: the
    statement splitter (lines 43-46), the statement loop (lines 51-64),
    the read-only probe and the reports that follow it (lines 66-91), the
    configuration check (lines 19-26) and the catch handler (lines 93-101).

    JavaScript strings are sequences of UTF-16 code units; the SQL text and
    the configuration values are modelled as such.  The text written to the
    console is kept as byte strings holding the UTF-8 text of the source
    file's literals. *)

From Stdlib Require Import List String Ascii NArith ZArith Arith Bool Lia.
From Stdlib Require Import Sorting.Sorted DecimalString.
Import ListNotations.

(** ** JavaScript strings *)

Module Js.

(** A string value: its UTF-16 code units. *)
Definition str := list N.

(** A source literal made of ASCII characters. *)
Definition lit (s : string) : str := map N_of_ascii (list_ascii_of_string s).

Fixpoint eqb (a b : str) : bool :=
  match a, b with
  | [], [] => true
  | x :: a', y :: b' => N.eqb x y && eqb a' b'
  | _, _ => false
  end.

(** [s.length] *)
Definition length (s : str) : nat := List.length s.

(** ToBoolean on a string: only the empty string is falsy. *)
Definition truthy (s : str) : bool :=
  match s with [] => false | _ :: _ => true end.

(** ToBoolean on a value that is either [undefined] or a string, as
    [process.env.X] is. *)
Definition truthy_opt (v : option str) : bool :=
  match v with None => false | Some s => truthy s end.

(** ECMAScript WhiteSpace and LineTerminator code points, the ones
    [String.prototype.trim] strips: TAB, LF, VT, FF, CR, SP, NBSP, the
    category Zs, LS, PS and the byte order mark. *)
Definition is_ws (c : N) : bool :=
  existsb (N.eqb c)
    [9; 10; 11; 12; 13; 32; 160; 5760;
     8192; 8193; 8194; 8195; 8196; 8197; 8198; 8199; 8200; 8201; 8202;
     8232; 8233; 8239; 8287; 12288; 65279]%N.

Fixpoint trimStart (s : str) : str :=
  match s with
  | [] => []
  | c :: r => if is_ws c then trimStart r else s
  end.

Definition trimEnd (s : str) : str := rev (trimStart (rev s)).

(** [s.trim()] *)
Definition trim (s : str) : str := trimEnd (trimStart s).

(** [s.startsWith(p)] *)
Fixpoint startsWith (s p : str) : bool :=
  match p with
  | [] => true
  | a :: p' =>
      match s with
      | [] => false
      | b :: s' => N.eqb b a && startsWith s' p'
      end
  end.

(** [s.split(sep)] for a separator of one code unit.  The empty string
    splits into one empty fragment; a text with [n] separators splits
    into [n + 1] fragments. *)
Fixpoint split (sep : N) (s : str) : list str :=
  match s with
  | [] => [[]]
  | c :: r =>
      if N.eqb c sep then [] :: split sep r
      else match split sep r with
           | f :: fs => (c :: f) :: fs
           | [] => [[c]]
           end
  end.


(** [fragments.join(sep)] *)
Fixpoint join (sep : N) (fs : list str) : str :=
  match fs with
  | [] => []
  | [f] => f
  | f :: fs' => f ++ sep :: join sep fs'
  end.

End Js.

(** ** The statement splitter (lines 43-46) *)

Definition semicolon : N := 59.

(** ['--'] *)
Definition comment_marker : Js.str := Js.lit "--".

(** ['\\n'] in the source: a backslash followed by the letter n. *)
Definition escaped_newline : Js.str := [92; 110]%N.

(** The predicate given to [filter] on line 46. *)
Definition keep (stmt : Js.str) : bool :=
  (0 <? Js.length stmt)
  && negb (Js.startsWith stmt comment_marker)
  && negb (Js.eqb stmt escaped_newline).

(** [migrationSQL.split(';').map(stmt => stmt.trim()).filter(...)] *)
Definition statements (migrationSQL : Js.str) : list Js.str :=
  filter keep (map Js.trim (Js.split semicolon migrationSQL)).

(** The example text of the specification; character 10 is the newline. *)
Definition example_source : Js.str :=
  Js.lit ("CREATE TABLE a (id int);" ++ String (ascii_of_nat 10) "-- comment"
          ++ String (ascii_of_nat 10) (";   " ++ String (ascii_of_nat 10)
          "CREATE INDEX idx ON a(id);")).

(** ** The world outside the script *)

(** What an awaited call of the Supabase client does: the promise resolves
    to an object whose [error] field is [null] ([None]) or an error object,
    or it rejects. *)
Inductive reply : Type :=
| Resolves (error : option string)
| Rejects (message : string).

(** What [readFileSync(path, 'utf8')] does: it returns the text or throws. *)
Inductive file_result : Type :=
| FileText (text : Js.str)
| FileError (message : string).

(** Everything the script observes.  The replies of the remote service may
    depend on the statements submitted to it so far. *)
Record World : Type := {
  NEXT_PUBLIC_SUPABASE_API : option Js.str;
  NEXT_PUBLIC_PUBLIC_API_KEY : option Js.str;
  (** [createClient(url, key)]: [Some m] when it throws. *)
  createClient : option Js.str -> option Js.str -> option string;
  (** [readFileSync(join(__dirname, name), 'utf8')] *)
  readFileSync : string -> file_result;
  (** [supabase.rpc(fn, { sql })] after the given earlier submissions. *)
  rpc : list Js.str -> string -> Js.str -> reply;
  (** [supabase.from('').select().limit(0)] after the given submissions. *)
  from_select_limit : list Js.str -> reply
}.

(** What the script does to the world, in order. *)
Inductive event : Type :=
| ConsoleLog (line : string)
| ConsoleError (line : string)
| CreateClient (url key : option Js.str)
| ReadFileSync (name : string)
| Rpc (fn : string) (sql : Js.str)
| FromSelectLimit.

Definition trace := list event.

(** The statements submitted to the remote service so far. *)
Fixpoint submitted (t : trace) : list Js.str :=
  match t with
  | [] => []
  | Rpc _ sql :: t' => sql :: submitted t'
  | _ :: t' => submitted t'
  end.

(** ** Control flow: exceptions and [process.exit] *)

Inductive completion (A : Type) : Type :=
| Normal (a : A)
| Throw (message : string)
| Exit (code : Z).

Arguments Normal {A} a.
Arguments Throw {A} message.
Arguments Exit {A} code.

(** A computation extends the trace and completes. *)
Definition M (A : Type) : Type := trace -> completion A * trace.

Definition ret {A} (a : A) : M A := fun t => (Normal a, t).

Definition bind {A B} (m : M A) (k : A -> M B) : M B :=
  fun t =>
    match m t with
    | (Normal a, t') => k a t'
    | (Throw e, t') => (Throw e, t')
    | (Exit c, t') => (Exit c, t')
    end.

Declare Scope js_scope.
Delimit Scope js_scope with js.
Notation "x <- m ;; k" := (bind m (fun x => k))
  (at level 61, m at next level, right associativity) : js_scope.
Notation "m ;; k" := (bind m (fun _ => k))
  (at level 61, right associativity) : js_scope.
Local Open Scope js_scope.

Definition emit (e : event) : M unit := fun t => (Normal tt, t ++ [e]).

Definition throw {A} (message : string) : M A := fun t => (Throw message, t).

(** [process.exit(code)] *)
Definition process_exit {A} (code : Z) : M A := fun t => (Exit code, t).

(** [try { body } catch (error) { handler(error.message) }] *)
Definition try_catch {A} (body : M A) (handler : string -> M A) : M A :=
  fun t =>
    match body t with
    | (Throw e, t') => handler e t'
    | r => r
    end.

Definition console_log (line : string) : M unit := emit (ConsoleLog line).
Definition console_error (line : string) : M unit := emit (ConsoleError line).

(** Awaiting a reply: a rejection is thrown at the [await]. *)
Definition await (r : reply) : M (option string) :=
  match r with
  | Resolves error => ret error
  | Rejects message => throw message
  end.

Section Script.

Variable w : World.

(** [createClient(supabaseUrl, supabaseAnonKey)] (line 30) *)
Definition create_client (url key : option Js.str) : M unit :=
  emit (CreateClient url key) ;;
  match createClient w url key with
  | Some message => throw message
  | None => ret tt
  end.

(** [readFileSync(join(__dirname, name), 'utf8')] (lines 37-38) *)
Definition read_file (name : string) : M Js.str :=
  emit (ReadFileSync name) ;;
  match readFileSync w name with
  | FileText text => ret text
  | FileError message => throw message
  end.

(** [await supabase.rpc(fn, { sql })], giving the [error] field. *)
Definition supabase_rpc (fn : string) (sql : Js.str) : M (option string) :=
  fun t => (emit (Rpc fn sql) ;; await (rpc w (submitted t) fn sql)) t.

(** [await supabase.from('').select().limit(0)], giving the [error] field. *)
Definition supabase_probe : M (option string) :=
  fun t => (emit FromSelectLimit ;; await (from_select_limit w (submitted t))) t.

(** A number inside a template literal. *)
Definition decimal (n : nat) : string := NilEmpty.string_of_uint (Nat.to_uint n).

(** The name joined to [__dirname] on line 37. *)
Definition migrationFile : string := "001_create_scheduler_tables.sql".

(** The [for] loop of lines 51-64, at index [i] with [rest] the statements
    from [statements[i]] on and [n] the value of [statements.length].
    Leaving the recursion is the [break]. *)
Fixpoint statement_loop (n i : nat) (rest : list Js.str) : M unit :=
  match rest with
  | [] => ret tt
  | statement :: rest' =>
      if Js.truthy (Js.trim statement) then
        console_log ("⚡ Executing statement " ++ decimal (i + 1) ++ "/"
                     ++ decimal n ++ "...") ;;
        error <- supabase_rpc "exec_sql" statement ;;
        match error with
        | Some _ =>
            console_log "⚠️  RPC method not available, trying direct execution..."
        | None => statement_loop n (S i) rest'
        end
      else statement_loop n (S i) rest'
  end.

(** [applyMigration] (lines 32-102). *)
Definition applyMigration : M unit :=
  console_log "🚀 Starting Enrollmate scheduler migration..." ;;
  try_catch
    (migrationSQL <- read_file migrationFile ;;
     console_log "📄 Migration file loaded successfully" ;;
     let stmts := statements migrationSQL in
     console_log ("🔄 Executing " ++ decimal (List.length stmts)
                  ++ " SQL statements...") ;;
     statement_loop (List.length stmts) 0 stmts ;;
     console_log "🔄 Attempting direct SQL execution..." ;;
     directError <- supabase_probe ;;
     match directError with
     | Some _ =>
         console_log "⚠️  Direct SQL execution not available with anon key" ;;
         console_log "📋 Please run the following SQL manually in your Supabase SQL Editor:" ;;
         console_log "" ;;
         console_log "📎 --- Copy the contents of migrations/001_create_scheduler_tables.sql ---" ;;
         console_log "🌐 Go to: https://supabase.com/dashboard/project/hwgzlwocdofoticqvwqg/sql" ;;
         console_log "📄 Paste the SQL and run it" ;;
         console_log "" ;;
         console_log "✅ Migration file created successfully at: migrations/001_create_scheduler_tables.sql"
     | None =>
         console_log "✅ Migration completed successfully!" ;;
         console_log "" ;;
         console_log "🎉 Your Enrollmate scheduler database is ready!" ;;
         console_log "📚 Tables created:" ;;
         console_log "  - course_sections (with sample data)" ;;
         console_log "  - user_schedules" ;;
         console_log "  - schedule_preferences" ;;
         console_log "" ;;
         console_log "🔒 Row Level Security (RLS) policies applied" ;;
         console_log "📊 Indexes created for optimal performance"
     end)
    (fun message =>
       console_error ("❌ Migration failed: " ++ message) ;;
       console_error "" ;;
       console_error "📋 Manual steps needed:" ;;
       console_error "1. Go to your Supabase dashboard: https://supabase.com/dashboard/project/hwgzlwocdofoticqvwqg/sql" ;;
       console_error "2. Copy the contents of migrations/001_create_scheduler_tables.sql" ;;
       console_error "3. Paste and execute the SQL in the SQL Editor" ;;
       process_exit 1).

(** The module body (lines 19-30 and 105). *)
Definition main : M unit :=
  let supabaseUrl := NEXT_PUBLIC_SUPABASE_API w in
  let supabaseAnonKey := NEXT_PUBLIC_PUBLIC_API_KEY w in
  (if negb (Js.truthy_opt supabaseUrl) || negb (Js.truthy_opt supabaseAnonKey)
   then
     console_error "❌ Missing Supabase environment variables" ;;
     console_error "Please ensure NEXT_PUBLIC_SUPABASE_API and NEXT_PUBLIC_PUBLIC_API_KEY are set in your .env file" ;;
     process_exit 1
   else ret tt) ;;
  create_client supabaseUrl supabaseAnonKey ;;
  applyMigration.

(** The exit status of the process: [process.exit]'s argument, 1 for an
    uncaught exception, 0 when the script runs to its end. *)
Definition exit_code (c : completion unit) : Z :=
  match c with
  | Normal _ => 0
  | Throw _ => 1
  | Exit code => code
  end.

(** One invocation of the script: what it did and its exit status. *)
Definition run : trace * Z :=
  let (c, t) := main [] in (t, exit_code c).

End Script.

(** ** The reported outcome *)

(** The run results of the specification.  The script names none of them:
    it tells them by the headline it prints. *)
Inductive outcome : Type :=
| Completed
| PartialFallback
| ManualFallback
| Failed.

Definition logged (line : string) (t : trace) : bool :=
  existsb (fun e => match e with
                    | ConsoleLog l => String.eqb l line
                    | _ => false
                    end) t.

Definition error_logged (headline : string) (t : trace) : bool :=
  existsb (fun e => match e with
                    | ConsoleError l => String.prefix headline l
                    | _ => false
                    end) t.

(** The outcome a finished run has reported: the headline of line 94, of
    line 82 or of line 72.  No line of the script announces a partial
    fallback. *)
Definition reported (t : trace) : option outcome :=
  if error_logged "❌ Migration failed:" t then Some Failed
  else if logged "✅ Migration completed successfully!" t then Some Completed
  else if logged "📋 Please run the following SQL manually in your Supabase SQL Editor:" t
       then Some ManualFallback
  else None.

(** [hay.includes(needle)] on console text. *)
Fixpoint contains (needle hay : string) : bool :=
  String.prefix needle hay
  || match hay with
     | EmptyString => false
     | String _ hay' => contains needle hay'
     end.

(** ** Notions used to state the properties *)



Definition no_ws_head (s : Js.str) : Prop :=
  match s with
  | [] => True
  | c :: _ => Js.is_ws c = false
  end.

(** [g] is [f] without its leading and trailing white space. *)
Definition Trimmed (f g : Js.str) : Prop :=
  exists l r,
    f = l ++ g ++ r
    /\ forallb Js.is_ws l = true /\ forallb Js.is_ws r = true
    /\ no_ws_head g /\ no_ws_head (rev g).

(** The trimmed fragments the specification discards. *)
Definition Discarded (f : Js.str) : Prop :=
  f = [] \/ (exists r, f = comment_marker ++ r) \/ f = escaped_newline.

(** [out] is [fs] without the members that satisfy [D], in order. *)
Inductive selects (D : Js.str -> Prop) : list Js.str -> list Js.str -> Prop :=
| selects_nil : selects D [] []
| selects_drop f fs out :
    D f -> selects D fs out -> selects D (f :: fs) out
| selects_keep f fs out :
    ~ D f -> selects D fs out -> selects D (f :: fs) (f :: out).

(** A fragment that yields a statement of the data model: trimmed, it is
    not empty and does not start with the comment marker. *)
Definition usable (f : Js.str) : Prop :=
  Js.trim f <> [] /\ Js.startsWith (Js.trim f) comment_marker = false.

(** The reply to the [i]-th of [stmts] when those before it have been
    submitted, after the submissions [hist]. *)
Definition reply_of (w : World) (hist stmts : list Js.str) (i : nat) : reply :=
  rpc w (hist ++ firstn i stmts) "exec_sql" (nth i stmts []).

(** The statements that pass the guard of line 53. *)
Definition guarded (stmts : list Js.str) : list Js.str :=
  filter (fun s => Js.truthy (Js.trim s)) stmts.



(** The events of the statement loop: its two console lines and its calls. *)
Definition loop_event (e : event) : bool :=
  match e with
  | ConsoleLog l => String.prefix "⚡" l || String.prefix "⚠" l
  | Rpc _ _ => true
  | _ => false
  end.

(** How the loop ends after [k] submissions of [g]: after the last
    statement with every reply a success, at an error reply, or at a
    rejection. *)
Definition ends_at (w : World) (hist g : list Js.str) (k : nat)
           (c : completion unit) : Prop :=
  match c with
  | Normal _ =>
      (k = List.length g
       /\ forall j, j < k -> reply_of w hist g j = Resolves None)
      \/ exists k0 e, k = S k0 /\ reply_of w hist g k0 = Resolves (Some e)
  | Throw m => exists k0, k = S k0 /\ reply_of w hist g k0 = Rejects m
  | Exit _ => False
  end.

(** Some call the script made threw: the client constructor, the file
    read, an [exec_sql] call or the probe. *)
Definition threw (w : World) (t : trace) : Prop :=
  (exists u k m, In (CreateClient u k) t /\ createClient w u k = Some m)
  \/ (exists n m, In (ReadFileSync n) t /\ readFileSync w n = FileError m)
  \/ (exists i m, i < List.length (submitted t)
                  /\ reply_of w [] (submitted t) i = Rejects m)
  \/ (exists m, In FromSelectLimit t
                /\ from_select_limit w (submitted t) = Rejects m).

(** ** Sample worlds *)

(** A world whose service refuses [exec_sql] and answers the probe. *)
Definition refusing_world : World := {|
  NEXT_PUBLIC_SUPABASE_API := Some (Js.lit "https://db.example");
  NEXT_PUBLIC_PUBLIC_API_KEY := Some (Js.lit "anon");
  createClient := fun _ _ => None;
  readFileSync := fun _ => FileText example_source;
  rpc := fun _ _ _ => Resolves (Some "function exec_sql not found"%string);
  from_select_limit := fun _ => Resolves None
|}.

(** The same world without the endpoint address. *)
Definition unconfigured_world : World := {|
  NEXT_PUBLIC_SUPABASE_API := None;
  NEXT_PUBLIC_PUBLIC_API_KEY := Some (Js.lit "anon");
  createClient := fun _ _ => None;
  readFileSync := fun _ => FileText example_source;
  rpc := fun _ _ _ => Resolves (Some "function exec_sql not found"%string);
  from_select_limit := fun _ => Resolves None
|}.

(** A text of blanks, a comment and empty fragments. *)
Definition blank_source : Js.str :=
  Js.lit ("  ;" ++ String (ascii_of_nat 10) "-- nothing to do ;; ").

(** ** The console lines of the loop *)

(** The line of line 54 for the statement numbered [i] of [n]. *)
Definition progress_line (i n : nat) : string :=
  ("⚡ Executing statement " ++ decimal i ++ "/" ++ decimal n ++ "...")%string.

(** The line of line 60. *)
Definition rpc_warning : string :=
  "⚠️  RPC method not available, trying direct execution...".

(** The headline of the catch handler (line 94) for a thrown message. *)
Definition failure_line (message : string) : string :=
  ("❌ Migration failed: " ++ message)%string.

(** What the loop writes for the first [k] of [rest], from index [i]: for
    each statement its progress line, then its call. *)
Fixpoint attempts (n i : nat) (rest : list Js.str) (k : nat) : trace :=
  match rest, k with
  | s :: rest', S k' =>
      ConsoleLog (progress_line (i + 1) n) :: Rpc "exec_sql" s
      :: attempts n (S i) rest' k'
  | _, _ => []
  end.

(** A world whose migration file cannot be read. *)
Definition fileless_world : World := {|
  NEXT_PUBLIC_SUPABASE_API := Some (Js.lit "https://db.example");
  NEXT_PUBLIC_PUBLIC_API_KEY := Some (Js.lit "anon");
  createClient := fun _ _ => None;
  readFileSync := fun _ => FileError "ENOENT: no such file or directory"%string;
  rpc := fun _ _ _ => Resolves None;
  from_select_limit := fun _ => Resolves None
|}.

(** A world whose client constructor throws. *)
Definition clientless_world : World := {|
  NEXT_PUBLIC_SUPABASE_API := Some (Js.lit "db.example");
  NEXT_PUBLIC_PUBLIC_API_KEY := Some (Js.lit "anon");
  createClient := fun _ _ => Some "Invalid supabaseUrl"%string;
  readFileSync := fun _ => FileText example_source;
  rpc := fun _ _ _ => Resolves None;
  from_select_limit := fun _ => Resolves None
|}.

(** A world whose service accepts the first statement and rejects the
    promise of the second; its probe would reject too. *)
Definition rejecting_world : World := {|
  NEXT_PUBLIC_SUPABASE_API := Some (Js.lit "https://db.example");
  NEXT_PUBLIC_PUBLIC_API_KEY := Some (Js.lit "anon");
  createClient := fun _ _ => None;
  readFileSync := fun _ => FileText example_source;
  rpc := fun hist _ _ =>
           match hist with
           | [] => Resolves None
           | _ => Rejects "fetch failed"%string
           end;
  from_select_limit := fun _ => Rejects "fetch failed"%string
|}.

(** A world whose service accepts every statement and whose probe rejects. *)
Definition probe_rejecting_world : World := {|
  NEXT_PUBLIC_SUPABASE_API := Some (Js.lit "https://db.example");
  NEXT_PUBLIC_PUBLIC_API_KEY := Some (Js.lit "anon");
  createClient := fun _ _ => None;
  readFileSync := fun _ => FileText example_source;
  rpc := fun _ _ _ => Resolves None;
  from_select_limit := fun _ => Rejects "fetch failed"%string
|}.

(** A world whose service accepts every statement and whose probe
    returns an error object. *)
Definition probe_refusing_world : World := {|
  NEXT_PUBLIC_SUPABASE_API := Some (Js.lit "https://db.example");
  NEXT_PUBLIC_PUBLIC_API_KEY := Some (Js.lit "anon");
  createClient := fun _ _ => None;
  readFileSync := fun _ => FileText example_source;
  rpc := fun _ _ _ => Resolves None;
  from_select_limit := fun _ => Resolves (Some "permission denied"%string)
|}.


(** ** JavaScript strings: [trim] and [split] *)

Lemma trimStart_head (s : Js.str) : no_ws_head (Js.trimStart s).
Proof.
  induction s as [|c r IH]; simpl; [exact I|].
  destruct (Js.is_ws c) eqn:E; [exact IH|exact E].
Qed.

Lemma trimStart_fixed (s : Js.str) : no_ws_head s -> Js.trimStart s = s.
Proof. destruct s as [|c r]; simpl; [reflexivity|]. intros ->. reflexivity. Qed.

Lemma trimStart_split (s : Js.str) :
  exists l, s = l ++ Js.trimStart s /\ forallb Js.is_ws l = true.
Proof.
  induction s as [|c r [l [Hl Hw]]]; simpl.
  - exists []. split; reflexivity.
  - destruct (Js.is_ws c) eqn:E.
    + exists (c :: l). simpl. rewrite E, Hw. split; [f_equal; exact Hl|reflexivity].
    + exists []. split; reflexivity.
Qed.

Lemma trimStart_snoc (s : Js.str) (c : N) :
  Js.is_ws c = false -> Js.trimStart (s ++ [c]) = Js.trimStart s ++ [c].
Proof.
  intros Hc. induction s as [|a r IH]; simpl.
  - rewrite Hc. reflexivity.
  - destruct (Js.is_ws a); [exact IH|reflexivity].
Qed.

Lemma trimEnd_head (s : Js.str) : no_ws_head s -> no_ws_head (Js.trimEnd s).
Proof.
  destruct s as [|c r]; simpl; [intros _; exact I|].
  intros Hc. unfold Js.trimEnd. simpl.
  rewrite (trimStart_snoc _ _ Hc), rev_app_distr. simpl. exact Hc.
Qed.

Lemma trimEnd_last (s : Js.str) : no_ws_head (rev (Js.trimEnd s)).
Proof. unfold Js.trimEnd. rewrite rev_involutive. apply trimStart_head. Qed.

Lemma trimEnd_split (s : Js.str) :
  exists r, s = Js.trimEnd s ++ r /\ forallb Js.is_ws r = true.
Proof.
  destruct (trimStart_split (rev s)) as [l [Hl Hw]].
  exists (rev l). split.
  - unfold Js.trimEnd. rewrite <- rev_app_distr, <- Hl, rev_involutive. reflexivity.
  - rewrite forallb_forall in *. intros x Hx. apply Hw, in_rev, Hx.
Qed.

Lemma trim_head (s : Js.str) : no_ws_head (Js.trim s).
Proof. apply trimEnd_head, trimStart_head. Qed.

Lemma trim_Trimmed (s : Js.str) : Trimmed s (Js.trim s).
Proof.
  destruct (trimStart_split s) as [l [Hl Hwl]].
  destruct (trimEnd_split (Js.trimStart s)) as [r [Hr Hwr]].
  exists l, r. repeat split; trivial.
  - unfold Js.trim. rewrite <- Hr. exact Hl.
  - apply trim_head.
  - apply trimEnd_last.
Qed.

Lemma trim_idempotent (s : Js.str) : Js.trim (Js.trim s) = Js.trim s.
Proof.
  unfold Js.trim at 1. rewrite (trimStart_fixed _ (trim_head s)).
  unfold Js.trim, Js.trimEnd. rewrite rev_involutive.
  rewrite (trimStart_fixed _ (trimStart_head _)). reflexivity.
Qed.

Section Split.

Variable sep : N.

Lemma split_not_nil (s : Js.str) : Js.split sep s <> [].
Proof.
  destruct s as [|c r]; simpl; [discriminate|].
  destruct (N.eqb c sep); [discriminate|].
  destruct (Js.split sep r); discriminate.
Qed.

Lemma join_split (s : Js.str) : Js.join sep (Js.split sep s) = s.
Proof.
  induction s as [|c r IH]; [reflexivity|].
  pose proof (split_not_nil r) as Hne. simpl.
  destruct (N.eqb_spec c sep) as [->|_].
  - destruct (Js.split sep r) as [|f fs]; [contradiction|].
    change (sep :: Js.join sep (f :: fs) = sep :: r). now rewrite IH.
  - destruct (Js.split sep r) as [|f fs]; [contradiction|].
    destruct fs as [|g gs]; simpl in *; now rewrite IH.
Qed.

Lemma split_no_sep (s : Js.str) :
  Forall (fun f => ~ In sep f) (Js.split sep s).
Proof.
  induction s as [|c r IH]; simpl.
  - constructor; [intros []|constructor].
  - destruct (N.eqb_spec c sep) as [->|Hc].
    + constructor; [intros []|exact IH].
    + destruct (Js.split sep r) as [|f fs]; inversion IH; subst;
        constructor; trivial; simpl; intros [E|E]; auto.
Qed.





End Split.



(** ** The statement splitter *)

Lemma keep_inv (s : Js.str) :
  keep s = true <->
  s <> [] /\ Js.startsWith s comment_marker = false
  /\ Js.eqb s escaped_newline = false.
Proof.
  unfold keep. rewrite !andb_true_iff, !negb_true_iff, Nat.ltb_lt.
  unfold Js.length. destruct s as [|c r].
  - simpl. split; [lia|]. intros [H _]. now contradiction H.
  - split; [intros [[_ H1] H2]|intros [_ [H1 H2]]]; repeat split;
      trivial; [discriminate|simpl; lia].
Qed.

Lemma statements_in (src s : Js.str) :
  In s (statements src) ->
  keep s = true /\ exists f, In f (Js.split semicolon src) /\ s = Js.trim f.
Proof.
  unfold statements. intros H. apply filter_In in H. destruct H as [H K].
  split; [exact K|]. apply in_map_iff in H. destruct H as [f [E F]].
  exists f. split; [exact F|symmetry; exact E].
Qed.


(** C6. The example of the specification splits into its two statements. *)
Theorem statements_example :
  statements example_source
  = [Js.lit "CREATE TABLE a (id int)"; Js.lit "CREATE INDEX idx ON a(id)"].
Proof. vm_compute. reflexivity. Qed.

Lemma eqb_eq (a b : Js.str) : Js.eqb a b = true <-> a = b.
Proof.
  revert b. induction a as [|x a IH]; intros [|y b]; simpl;
    try (split; [discriminate|discriminate]); [tauto|].
  rewrite andb_true_iff, N.eqb_eq, IH. split.
  - intros [-> ->]. reflexivity.
  - intros E. inversion E. auto.
Qed.

Lemma startsWith_prefix (s p : Js.str) :
  Js.startsWith s p = true <-> exists r, s = p ++ r.
Proof.
  revert s. induction p as [|a p IH]; intros s; simpl.
  - split; [intros _; exists s; reflexivity|intros _; destruct s; reflexivity].
  - destruct s as [|b s].
    + split; [discriminate|intros [r E]; discriminate].
    + simpl. rewrite andb_true_iff, N.eqb_eq, IH. split.
      * intros [-> [r ->]]. exists r. reflexivity.
      * intros [r E]. inversion E. split; [reflexivity|exists r; reflexivity].
Qed.

Lemma keep_iff_not_Discarded (f : Js.str) : keep f = true <-> ~ Discarded f.
Proof.
  rewrite keep_inv. unfold Discarded.
  rewrite <- startsWith_prefix, <- (eqb_eq f escaped_newline).
  destruct (Js.startsWith f comment_marker), (Js.eqb f escaped_newline);
    intuition congruence.
Qed.

Lemma selects_filter (D : Js.str -> Prop) (k : Js.str -> bool) (l : list Js.str) :
  (forall f, k f = true <-> ~ D f) ->
  (forall f, D f \/ ~ D f) ->
  selects D l (filter k l).
Proof.
  intros Hk Hd. induction l as [|f l IH]; simpl; [constructor|].
  destruct (k f) eqn:E.
  - apply selects_keep; [apply Hk, E|exact IH].
  - destruct (Hd f) as [H|H]; [apply selects_drop; assumption|].
    apply Hk in H. congruence.
Qed.

Lemma Discarded_dec (f : Js.str) : Discarded f \/ ~ Discarded f.
Proof.
  destruct (keep f) eqn:E.
  - right. apply keep_iff_not_Discarded, E.
  - left. unfold Discarded.
    rewrite <- startsWith_prefix, <- (eqb_eq f escaped_newline).
    unfold keep in E. unfold Js.length in E.
    destruct f as [|c r]; [left; reflexivity|right]. simpl (0 <? _) in E.
    destruct (Js.startsWith (c :: r) comment_marker); [left; reflexivity|].
    destruct (Js.eqb (c :: r) escaped_newline); [right; reflexivity|].
    discriminate.
Qed.

Lemma Forall2_Trimmed (fs : list Js.str) : Forall2 Trimmed fs (map Js.trim fs).
Proof. induction fs; simpl; constructor; [apply trim_Trimmed|assumption]. Qed.

(** C7. The splitter cuts the text at every [;], trims each fragment, and
    drops exactly the trimmed fragments that are empty, begin with [--] or
    are a backslash followed by [n]; the others are kept, in order. *)
Theorem statements_split_trim_discard (src : Js.str) :
  exists fragments trimmed : list Js.str,
    Js.join semicolon fragments = src
    /\ fragments <> []
    /\ Forall (fun f => ~ In semicolon f) fragments
    /\ Forall2 Trimmed fragments trimmed
    /\ selects Discarded trimmed (statements src).
Proof.
  exists (Js.split semicolon src), (map Js.trim (Js.split semicolon src)).
  split; [apply join_split|].
  split; [apply split_not_nil|].
  split; [apply split_no_sep|].
  split; [apply Forall2_Trimmed|].
  apply selects_filter; [apply keep_iff_not_Discarded|apply Discarded_dec].
Qed.
(** ** The statement loop *)

Lemma submitted_app (t1 t2 : trace) :
  submitted (t1 ++ t2) = submitted t1 ++ submitted t2.
Proof.
  induction t1 as [|e t1 IH]; [reflexivity|].
  destruct e; simpl; rewrite IH; reflexivity.
Qed.

Lemma reply_of_cons (w : World) (hist : list Js.str) (s : Js.str)
      (g : list Js.str) (j : nat) :
  reply_of w hist (s :: g) (S j) = reply_of w (hist ++ [s]) g j.
Proof. unfold reply_of. simpl. now rewrite <- app_assoc. Qed.

Lemma reply_of_zero (w : World) (hist : list Js.str) (s : Js.str)
      (g : list Js.str) :
  reply_of w hist (s :: g) 0 = rpc w hist "exec_sql" s.
Proof. unfold reply_of. simpl. now rewrite app_nil_r. Qed.

(** What one execution of the loop does: it submits the first [k] of the
    statements that pass the guard, every reply but the last is a success,
    and it ends after the last statement or at a reply that is not one. *)
Lemma statement_loop_spec (w : World) (rest : list Js.str) :
  forall (n i : nat) (t : trace),
  exists (c : completion unit) (d : trace) (k : nat),
    statement_loop w n i rest t = (c, t ++ d)
    /\ forallb loop_event d = true
    /\ submitted d = firstn k (guarded rest)
    /\ k <= List.length (guarded rest)
    /\ (forall j, S j < k ->
          reply_of w (submitted t) (guarded rest) j = Resolves None)
    /\ ends_at w (submitted t) (guarded rest) k c.
Proof.
  induction rest as [|s rest IH]; intros n i t.
  - exists (Normal tt), [], 0. simpl. rewrite app_nil_r.
    repeat split; try lia. left. split; [reflexivity|]. intros j Hj. lia.
  - simpl statement_loop. unfold guarded. simpl filter.
    fold (guarded rest).
    destruct (Js.truthy (Js.trim s)) eqn:G; [|apply IH].
    unfold bind at 1. unfold console_log at 1. unfold emit at 1.
    unfold bind at 1. unfold supabase_rpc. unfold bind at 1. unfold emit at 1.
    rewrite submitted_app. simpl (submitted [_]). rewrite app_nil_r.
    destruct (rpc w (submitted t) "exec_sql" s) as [[e|]|m] eqn:R; simpl await.
    + unfold ret, console_log, emit.
      eexists (Normal tt), [_; _; _], 1.
      split; [rewrite <- !app_assoc; reflexivity|].
      split; [reflexivity|]. split; [reflexivity|].
      split; [simpl; lia|]. split; [intros j Hj; lia|].
      right. exists 0, e. split; [reflexivity|]. now rewrite reply_of_zero.
    + unfold ret.
      match goal with |- context [statement_loop w n (S i) rest ?t1] =>
        destruct (IH n (S i) t1) as (c & d & k & Hrun & Hev & Hsub & Hk & Hok & Hc)
      end.
      rewrite Hrun.
      unfold ends_at in *.
      rewrite !submitted_app in Hok, Hc. simpl in Hok, Hc.
      rewrite app_nil_r in Hok, Hc.
      eexists c, (_ :: _ :: d), (S k).
      split; [rewrite <- !app_assoc; reflexivity|].
      split; [exact Hev|]. split; [simpl; now rewrite Hsub|].
      split; [simpl; lia|]. split.
      * intros [|j] Hj; [now rewrite reply_of_zero|].
        rewrite reply_of_cons. apply Hok. lia.
      * destruct c as [u|m|x].
        -- destruct Hc as [[-> Hall]|(k0 & e & -> & Hr)].
           ++ left. split; [reflexivity|].
              intros [|j] Hj; [now rewrite reply_of_zero|].
              rewrite reply_of_cons. apply Hall. simpl in Hj. lia.
           ++ right. exists (S k0), e. split; [reflexivity|].
              now rewrite reply_of_cons.
        -- destruct Hc as (k0 & -> & Hr). exists (S k0).
           split; [reflexivity|]. now rewrite reply_of_cons.
        -- exact Hc.
    + unfold throw.
      eexists (Throw m), [_; _], 1.
      split; [rewrite <- !app_assoc; reflexivity|].
      split; [reflexivity|]. split; [reflexivity|].
      split; [simpl; lia|]. split; [intros j Hj; lia|].
      exists 0. split; [reflexivity|]. now rewrite reply_of_zero.
Qed.

(** ** The whole run *)

Lemma loop_events_quiet (d : trace) :
  forallb loop_event d = true ->
  (forall h, error_logged h d = false)
  /\ logged "✅ Migration completed successfully!" d = false
  /\ logged "📋 Please run the following SQL manually in your Supabase SQL Editor:" d = false
  /\ ~ In FromSelectLimit d
  /\ (forall n, ~ In (ReadFileSync n) d)
  /\ (forall u k, ~ In (CreateClient u k) d).
Proof.
  induction d as [|e d IH]; simpl.
  - intros _. repeat split; auto.
  - rewrite andb_true_iff. intros [He Hd].
    destruct (IH Hd) as (I1 & I2 & I3 & I4 & I5 & I6).
    unfold logged, error_logged in *. simpl.
    destruct e as [l|l|u k|n|fn sql|]; simpl in He; try discriminate.
    + repeat split; auto.
      * rewrite I2, orb_false_r. destruct (String.eqb_spec l "✅ Migration completed successfully!"); [|reflexivity].
        subst l. vm_compute in He. discriminate.
      * rewrite I3, orb_false_r.
        match goal with |- String.eqb l ?x = false =>
          destruct (String.eqb_spec l x); [|reflexivity] end.
        subst l. vm_compute in He. discriminate.
      * intros [H|H]; [discriminate|auto].
      * intros n [H|H]; [discriminate|]. eapply I5, H.
      * intros u k [H|H]; [discriminate|]. eapply I6, H.
    + repeat split; auto.
      * intros [H|H]; [discriminate|auto].
      * intros n [H|H]; [discriminate|]. eapply I5, H.
      * intros u k [H|H]; [discriminate|]. eapply I6, H.
Qed.

Lemma statements_pass_guard (src : Js.str) :
  Forall (fun s => Js.truthy (Js.trim s) = true) (statements src).
Proof.
  rewrite Forall_forall. intros s Hs. apply statements_in in Hs.
  destruct Hs as [K [f [_ ->]]]. rewrite trim_idempotent.
  apply keep_inv in K. destruct K as [Hne _].
  destruct (Js.trim f); [contradiction|reflexivity].
Qed.

Lemma guarded_fixed (l : list Js.str) :
  Forall (fun s => Js.truthy (Js.trim s) = true) l -> guarded l = l.
Proof.
  unfold guarded. induction 1 as [|s l Hs _ IH]; simpl; [reflexivity|].
  now rewrite Hs, IH.
Qed.

Ltac unfold_run :=
  unfold run, main, applyMigration, try_catch, bind, create_client,
    read_file, supabase_probe, await, throw, console_log, console_error,
    emit, ret, process_exit.

Ltac step := cbn -[statements statement_loop reported contains In].

(** C4. With either configuration value missing the script prints its two
    diagnostic lines, the second naming both variables, and exits with
    status 1: it creates no client, reads no file, and calls neither
    [exec_sql] nor the probe. *)
Theorem missing_configuration_aborts (w : World) :
  Js.truthy_opt (NEXT_PUBLIC_SUPABASE_API w) = false
  \/ Js.truthy_opt (NEXT_PUBLIC_PUBLIC_API_KEY w) = false ->
  (forall n, ~ In (ReadFileSync n) (fst (run w)))
  /\ (forall u k, ~ In (CreateClient u k) (fst (run w)))
  /\ (forall fn sql, ~ In (Rpc fn sql) (fst (run w)))
  /\ ~ In FromSelectLimit (fst (run w))
  /\ (exists line, In (ConsoleError line) (fst (run w))
        /\ contains "NEXT_PUBLIC_SUPABASE_API" line = true
        /\ contains "NEXT_PUBLIC_PUBLIC_API_KEY" line = true)
  /\ snd (run w) <> 0%Z.
Proof.
  intros H.
  assert (E : negb (Js.truthy_opt (NEXT_PUBLIC_SUPABASE_API w))
              || negb (Js.truthy_opt (NEXT_PUBLIC_PUBLIC_API_KEY w)) = true).
  { destruct H as [-> | ->]; [reflexivity|apply orb_true_r]. }
  unfold_run. rewrite E. step.
  repeat split.
  - intros n [F|[F|[]]]; discriminate.
  - intros u k [F|[F|[]]]; discriminate.
  - intros fn sql [F|[F|[]]]; discriminate.
  - intros [F|[F|[]]]; discriminate.
  - eexists. split; [right; left; reflexivity|]. split; vm_compute; reflexivity.
  - discriminate.
Qed.

Ltac norm :=
  cbn [submitted app]; rewrite ?submitted_app; cbn [submitted app];
  rewrite ?app_nil_r.

(** The case analysis of a run: the configuration, the client, the file,
    the way the loop ends and the reply of the probe. *)
Ltac run_cases w :=
  unfold_run;
  destruct (Js.truthy_opt (NEXT_PUBLIC_SUPABASE_API w)) eqn:Hurl;
    [destruct (Js.truthy_opt (NEXT_PUBLIC_PUBLIC_API_KEY w)) eqn:Hkey|];
    step;
    [ destruct (createClient w _ _) as [mc|] eqn:Hclient; step;
      [ | destruct (readFileSync w migrationFile) as [src|mf] eqn:Hfile; step;
          [ match goal with
            | |- context [statement_loop w ?n ?i ?r ?t] =>
                destruct (statement_loop_spec w r n i t)
                  as (c & d & k & Hrun & Hev & Hsub & Hk & Hok & Hc);
                rewrite Hrun;
                rewrite (guarded_fixed _ (statements_pass_guard src))
                  in Hsub, Hk, Hok, Hc;
                cbn [submitted] in Hok, Hc;
                destruct (loop_events_quiet d Hev)
                  as (Q1 & Q2 & Q3 & Q4 & Q5 & Q6);
                destruct c as [[]|ml|x]; step;
                try (assert (Hend := Hc); cbn [ends_at] in Hc);
                [ norm;
                  destruct (from_select_limit w (submitted d))
                    as [[e|]|mp] eqn:Hprobe;
                  step; norm; rewrite ?Hprobe
                | norm | contradiction ]
            end
          | ] ]
    | | ].

Ltac report :=
  unfold reported, logged, error_logged in *;
  simpl existsb; rewrite ?existsb_app; simpl existsb;
  repeat match goal with
         | H : existsb _ _ = false |- _ => rewrite H
         | H : forall h, existsb _ _ = false |- _ => rewrite H
         end;
  simpl.

(** Uses a hypothesis [H : In e t] on a trace that holds no such event. *)
Ltac absurd_in H :=
  simpl In in H; rewrite ?in_app_iff in H; simpl In in H;
  intuition (try discriminate; eauto).

(** C2, as amended. In a run that reaches the probe, a probe that succeeds
    makes the run report Completed; a probe that returns an error object
    makes it report ManualFallback and print a line holding the path of the
    migration file; a probe whose promise rejects makes it report Failed
    and exit with status 1, its guidance still holding that path. *)
Theorem probe_decides_outcome (w : World) :
  In FromSelectLimit (fst (run w)) ->
  (from_select_limit w (submitted (fst (run w))) = Resolves None ->
     reported (fst (run w)) = Some Completed)
  /\ (forall e,
        from_select_limit w (submitted (fst (run w))) = Resolves (Some e) ->
        reported (fst (run w)) = Some ManualFallback
        /\ exists line,
             In (ConsoleLog line) (fst (run w))
             /\ contains ("migrations/" ++ migrationFile) line = true)
  /\ (forall m,
        from_select_limit w (submitted (fst (run w))) = Rejects m ->
        reported (fst (run w)) = Some Failed
        /\ In (ConsoleError (failure_line m)) (fst (run w))
        /\ snd (run w) = 1%Z
        /\ exists line,
             In (ConsoleError line) (fst (run w))
             /\ contains ("migrations/" ++ migrationFile) line = true).
Proof.
  run_cases w; intros HIn; try (exfalso; absurd_in HIn; fail);
    (split; [intros Hp|split; [intros e' Hp|intros m' Hp]]);
    try discriminate.
  - split; [report; reflexivity|].
    exists "📎 --- Copy the contents of migrations/001_create_scheduler_tables.sql ---"%string.
    split; [|vm_compute; reflexivity].
    simpl In. rewrite !in_app_iff. simpl In. tauto.
  - report. reflexivity.
  - injection Hp as <-.
    split; [report; reflexivity|].
    split; [simpl In; rewrite !in_app_iff; simpl In; tauto|].
    split; [reflexivity|].
    exists "2. Copy the contents of migrations/001_create_scheduler_tables.sql"%string.
    split; [|vm_compute; reflexivity].
    simpl In. rewrite !in_app_iff. simpl In. tauto.
Qed.

(** C2, as stated, fails: a run can reach the probe and have it fail
    without reporting ManualFallback.  In the world whose probe rejects
    its promise the probe is made and fails, and the catch handler
    reports Failed. *)
Lemma probe_failure_without_manual_fallback :
  In FromSelectLimit (fst (run probe_rejecting_world))
  /\ from_select_limit probe_rejecting_world
       (submitted (fst (run probe_rejecting_world)))
     = Rejects "fetch failed"%string
  /\ reported (fst (run probe_rejecting_world)) = Some Failed
  /\ snd (run probe_rejecting_world) = 1%Z
  /\ ~ (forall w : World,
          In FromSelectLimit (fst (run w)) ->
          from_select_limit w (submitted (fst (run w))) <> Resolves None ->
          reported (fst (run w)) = Some ManualFallback).
Proof.
  assert (HIn : In FromSelectLimit (fst (run probe_rejecting_world))).
  { vm_compute. repeat (try (left; reflexivity); right). }
  split; [exact HIn|].
  split; [vm_compute; reflexivity|].
  split; [vm_compute; reflexivity|].
  split; [vm_compute; reflexivity|].
  intros H.
  assert (Hp : from_select_limit probe_rejecting_world
                 (submitted (fst (run probe_rejecting_world)))
               <> Resolves None) by (vm_compute; discriminate).
  pose proof (H probe_rejecting_world HIn Hp) as E.
  vm_compute in E. discriminate E.
Qed.

Lemma reply_of_firstn (w : World) (hist g : list Js.str) (k i : nat) :
  i < k -> reply_of w hist (firstn k g) i = reply_of w hist g i.
Proof.
  intros Hi. unfold reply_of.
  rewrite firstn_firstn, Nat.min_l, nth_firstn by lia.
  destruct (Nat.ltb_spec i k); [reflexivity|lia].
Qed.

Lemma ends_at_covers (w : World) (hist g : list Js.str) (k : nat)
      (c : completion unit) :
  ends_at w hist g k c ->
  forall j, j < List.length g ->
    (forall i, i < j -> reply_of w hist g i = Resolves None) -> j < k.
Proof.
  intros He j Hj Hall. destruct (Nat.lt_ge_cases j k) as [|Hge]; [assumption|].
  destruct c as [u|m|x]; simpl in He.
  - destruct He as [[-> _]|(k0 & e & -> & Hr)]; [lia|].
    rewrite Hall in Hr by lia. discriminate.
  - destruct He as (k0 & -> & Hr). rewrite Hall in Hr by lia. discriminate.
  - contradiction.
Qed.

Lemma submitted_nil (t : trace) :
  submitted t = [] -> forall fn sql, ~ In (Rpc fn sql) t.
Proof.
  induction t as [|e t IH]; simpl; [intros _ fn sql []|].
  destruct e; try discriminate; intros H fn sql [F|F];
    try discriminate; eapply IH; eauto.
Qed.

(** C3. Whatever the statements and whatever the service replies, the loop
    submits the guarded statements in order and stops at the first reply
    that is not a success: a statement with such a reply is the last one
    submitted.  If the first reply is not a success, at most one statement
    is submitted. *)
Theorem loop_stops_at_first_failure (w : World) (stmts : list Js.str)
        (n i : nat) (t : trace) :
  exists k,
    submitted (snd (statement_loop w n i stmts t))
    = submitted t ++ firstn k (guarded stmts)
    /\ k <= List.length (guarded stmts)
    /\ (forall j, j < k ->
          reply_of w (submitted t) (guarded stmts) j <> Resolves None ->
          k = S j)
    /\ (reply_of w (submitted t) (guarded stmts) 0 <> Resolves None ->
        k <= 1).
Proof.
  destruct (statement_loop_spec w stmts n i t)
    as (c & d & k & Hrun & _ & Hsub & Hk & Hok & _).
  exists k. rewrite Hrun. simpl snd. rewrite submitted_app, Hsub.
  split; [reflexivity|]. split; [exact Hk|].
  assert (Hlast : forall j, j < k ->
            reply_of w (submitted t) (guarded stmts) j <> Resolves None ->
            k = S j).
  { intros j Hj Hr. destruct (Nat.eq_dec k (S j)) as [|Hne]; [assumption|].
    exfalso. apply Hr, Hok. lia. }
  split; [exact Hlast|].
  intros H0. destruct k as [|k]; [lia|].
  rewrite (Hlast 0); [lia|lia|exact H0].
Qed.

(** C10. Every statement of the splitter passes the guard of line 53; and
    in a run that gets to the loop the submissions are a prefix of the
    statements, which holds every statement whose predecessors were all
    answered with a success. *)
Theorem guard_passes_and_prefix_submitted (w : World) (text : Js.str) :
  Js.truthy_opt (NEXT_PUBLIC_SUPABASE_API w) = true ->
  Js.truthy_opt (NEXT_PUBLIC_PUBLIC_API_KEY w) = true ->
  createClient w (NEXT_PUBLIC_SUPABASE_API w) (NEXT_PUBLIC_PUBLIC_API_KEY w)
  = None ->
  readFileSync w migrationFile = FileText text ->
  Forall (fun s => Js.truthy (Js.trim s) = true) (statements text)
  /\ exists k,
       submitted (fst (run w)) = firstn k (statements text)
       /\ k <= List.length (statements text)
       /\ forall j, j < List.length (statements text) ->
            (forall i, i < j ->
               reply_of w [] (statements text) i = Resolves None) ->
            j < k.
Proof.
  intros Hu Hy Hcl Hf. split; [apply statements_pass_guard|].
  revert Hu Hy Hcl Hf.
  run_cases w; intros Hu Hy Hcl Hf; try discriminate;
    injection Hf as <-; exists k; rewrite Hsub;
    (split; [reflexivity|]); (split; [exact Hk|]);
    eapply ends_at_covers; simpl; eassumption.
Qed.

(** No trace reports a partial fallback. *)
Remark reported_never_partial (t : trace) : reported t <> Some PartialFallback.
Proof.
  unfold reported.
  destruct (error_logged _ t); [discriminate|].
  destruct (logged _ t); [discriminate|].
  destruct (logged _ t); discriminate.
Qed.

(** Splits a hypothesis [H : In e t] into the places of [t]. *)
Ltac in_cases H :=
  simpl In in H; rewrite ?in_app_iff in H; simpl In in H;
  repeat (destruct H as [H|H]); try discriminate H; try contradiction.

Lemma ends_normally_without_rejection (w : World) (hist g : list Js.str)
      (k : nat) (u : unit) :
  (forall j, S j < k -> reply_of w hist g j = Resolves None) ->
  ends_at w hist g k (Normal u) ->
  forall i m, i < k -> reply_of w hist g i <> Rejects m.
Proof.
  intros Hok He i m Hi Hr. simpl in He.
  destruct He as [[_ Hall]|(k0 & e & -> & Hs)].
  - rewrite Hall in Hr by assumption. discriminate.
  - destruct (Nat.eq_dec i k0) as [->|Hne]; [congruence|].
    rewrite Hok in Hr by lia. discriminate.
Qed.

(** C5. A run that reports Completed or ManualFallback exits with status 0
    (no run reports PartialFallback); a run with a configuration value
    missing, a run in which a call threw, and a run whose migration file
    cannot be read exit with a status other than 0. *)
Theorem exit_status (w : World) :
  (forall o, reported (fst (run w)) = Some o ->
     o = Completed \/ o = ManualFallback \/ o = PartialFallback ->
     snd (run w) = 0%Z)
  /\ (Js.truthy_opt (NEXT_PUBLIC_SUPABASE_API w) = false
      \/ Js.truthy_opt (NEXT_PUBLIC_PUBLIC_API_KEY w) = false ->
      snd (run w) <> 0%Z)
  /\ (threw w (fst (run w)) -> snd (run w) <> 0%Z)
  /\ (forall m, readFileSync w migrationFile = FileError m ->
        snd (run w) <> 0%Z).
Proof.
  unfold threw.
  run_cases w;
    (split; [report; try reflexivity;
             intros o [= <-] [|[|]]; discriminate|]);
    (split; [try discriminate; intros [|]; discriminate|]);
    (split; [try discriminate|try discriminate; intros m; discriminate]).
  all: intros [(u & y & m & HIn & Hm)|[(n & m & HIn & Hm)
                |[(i & m & Hi & Hm)|(m & _ & Hm)]]];
    [ in_cases HIn;
      first [injection HIn as <- <-; congruence|exfalso; exact (Q6 _ _ HIn)]
    | in_cases HIn;
      first [injection HIn as <-; congruence|exfalso; exact (Q5 _ HIn)]
    | rewrite Hsub in Hi, Hm; rewrite length_firstn in Hi;
      rewrite reply_of_firstn in Hm by lia; intros _;
      rewrite Nat.min_l in Hi by lia;
      exact (ends_normally_without_rejection _ _ _ _ _ Hok Hend _ _ Hi Hm)
    | congruence ].
Qed.

Lemma unusable_not_kept (f : Js.str) : ~ usable f -> keep (Js.trim f) = false.
Proof.
  unfold usable, keep, Js.length. intros H.
  destruct (Js.trim f) as [|c r] eqn:E; [reflexivity|].
  destruct (Js.startsWith (c :: r) comment_marker) eqn:S; [reflexivity|].
  exfalso. apply H. split; [discriminate|reflexivity].
Qed.

Lemma statements_none (text : Js.str) :
  Forall (fun f => ~ usable f) (Js.split semicolon text) -> statements text = [].
Proof.
  unfold statements. induction 1 as [|f fs Hf _ IH]; simpl; [reflexivity|].
  now rewrite (unusable_not_kept _ Hf).
Qed.

(** C8. A text without a usable fragment gives no statement; the loop then
    returns at once, the run submits nothing, and a run that gets to the
    splitter goes on to the probe. *)
Theorem no_usable_fragment_no_submission (text : Js.str) :
  Forall (fun f => ~ usable f) (Js.split semicolon text) ->
  statements text = []
  /\ (forall w n i t,
        statement_loop w n i (statements text) t = (Normal tt, t))
  /\ (forall w, readFileSync w migrationFile = FileText text ->
        forall fn sql, ~ In (Rpc fn sql) (fst (run w)))
  /\ (forall w,
        Js.truthy_opt (NEXT_PUBLIC_SUPABASE_API w) = true ->
        Js.truthy_opt (NEXT_PUBLIC_PUBLIC_API_KEY w) = true ->
        createClient w (NEXT_PUBLIC_SUPABASE_API w)
                     (NEXT_PUBLIC_PUBLIC_API_KEY w) = None ->
        readFileSync w migrationFile = FileText text ->
        In FromSelectLimit (fst (run w))).
Proof.
  intros Hno. pose proof (statements_none _ Hno) as Hnil.
  split; [exact Hnil|]. split; [intros; rewrite Hnil; reflexivity|]. split.
  - intros w. run_cases w; intros Hf; apply submitted_nil; try reflexivity;
      injection Hf as <-; norm; rewrite Hsub, Hnil, firstn_nil; reflexivity.
  - intros w. run_cases w; intros Hu Hy Hcl Hf; try discriminate;
      injection Hf as <-.
    + simpl In. rewrite !in_app_iff. simpl In. tauto.
    + simpl In. rewrite !in_app_iff. simpl In. tauto.
    + simpl In. rewrite !in_app_iff. simpl In. tauto.
    + exfalso. destruct Hc as (k0 & -> & _). rewrite Hnil in Hk. simpl in Hk. lia.
Qed.

(** C9. There is a run in which the service refuses the first statement,
    the later statements are never submitted, and yet the probe is made and
    succeeds: the run reports Completed and exits with status 0. *)
Theorem completed_despite_refused_statement :
  exists (w : World) (text : Js.str),
    readFileSync w migrationFile = FileText text
    /\ (exists e, reply_of w [] (statements text) 0 = Resolves (Some e))
    /\ submitted (fst (run w)) = firstn 1 (statements text)
    /\ 1 < List.length (statements text)
    /\ In FromSelectLimit (fst (run w))
    /\ from_select_limit w (submitted (fst (run w))) = Resolves None
    /\ reported (fst (run w)) = Some Completed
    /\ snd (run w) = 0%Z.
Proof.
  exists refusing_world, example_source.
  split; [reflexivity|]. split; [eexists; reflexivity|].
  split; [vm_compute; reflexivity|]. split; [vm_compute; lia|].
  split; [vm_compute; repeat (try (left; reflexivity); right)|].
  split; [vm_compute; reflexivity|].
  split; vm_compute; reflexivity.
Qed.

(** ** The theorems at concrete inputs *)

Lemma missing_configuration_aborts_witness :
  Js.truthy_opt (NEXT_PUBLIC_SUPABASE_API unconfigured_world) = false
  /\ snd (run unconfigured_world) <> 0%Z.
Proof.
  split; [reflexivity|].
  apply (missing_configuration_aborts unconfigured_world).
  left. reflexivity.
Defined.

Lemma probe_decides_outcome_witness :
  (In FromSelectLimit (fst (run refusing_world))
   /\ reported (fst (run refusing_world)) = Some Completed)
  /\ (In FromSelectLimit (fst (run probe_refusing_world))
      /\ reported (fst (run probe_refusing_world)) = Some ManualFallback)
  /\ (In FromSelectLimit (fst (run probe_rejecting_world))
      /\ reported (fst (run probe_rejecting_world)) = Some Failed).
Proof.
  assert (H1 : In FromSelectLimit (fst (run refusing_world))).
  { vm_compute. repeat (try (left; reflexivity); right). }
  assert (P1 : from_select_limit refusing_world
                 (submitted (fst (run refusing_world))) = Resolves None)
    by (vm_compute; reflexivity).
  assert (H2 : In FromSelectLimit (fst (run probe_refusing_world))).
  { vm_compute. repeat (try (left; reflexivity); right). }
  assert (P2 : from_select_limit probe_refusing_world
                 (submitted (fst (run probe_refusing_world)))
               = Resolves (Some "permission denied"%string))
    by (vm_compute; reflexivity).
  assert (H3 : In FromSelectLimit (fst (run probe_rejecting_world))).
  { vm_compute. repeat (try (left; reflexivity); right). }
  assert (P3 : from_select_limit probe_rejecting_world
                 (submitted (fst (run probe_rejecting_world)))
               = Rejects "fetch failed"%string)
    by (vm_compute; reflexivity).
  split; [split; [exact H1|]|split; (split; [assumption|])].
  - exact (proj1 (probe_decides_outcome refusing_world H1) P1).
  - exact (proj1 (proj1 (proj2 (probe_decides_outcome probe_refusing_world H2))
                        _ P2)).
  - exact (proj1 (proj2 (proj2 (probe_decides_outcome probe_rejecting_world H3))
                        _ P3)).
Defined.

Lemma guard_passes_and_prefix_submitted_witness :
  Forall (fun s => Js.truthy (Js.trim s) = true) (statements example_source)
  /\ exists k,
       submitted (fst (run refusing_world)) = firstn k (statements example_source)
       /\ k <= List.length (statements example_source)
       /\ forall j, j < List.length (statements example_source) ->
            (forall i, i < j ->
               reply_of refusing_world [] (statements example_source) i
               = Resolves None) ->
            j < k.
Proof.
  apply (guard_passes_and_prefix_submitted refusing_world example_source);
    reflexivity.
Defined.

Lemma no_usable_fragment_no_submission_witness :
  Forall (fun f => ~ usable f) (Js.split semicolon blank_source)
  /\ statements blank_source = [].
Proof.
  assert (H : Forall (fun f => ~ usable f) (Js.split semicolon blank_source)).
  { vm_compute. repeat constructor; intros [H1 H2];
      first [apply H1; reflexivity|discriminate H2]. }
  split; [exact H|].
  apply (no_usable_fragment_no_submission blank_source H).
Defined.

(** ** More on the statement splitter *)

Lemma split_app (sep : N) (a b : Js.str) :
  Js.split sep (a ++ sep :: b) = Js.split sep a ++ Js.split sep b.
Proof.
  induction a as [|c r IH]; simpl.
  - now rewrite N.eqb_refl.
  - rewrite IH. destruct (N.eqb c sep); [reflexivity|].
    pose proof (split_not_nil sep r).
    destruct (Js.split sep r); [contradiction|reflexivity].
Qed.

Lemma split_without_sep (sep : N) (f : Js.str) :
  ~ In sep f -> Js.split sep f = [f].
Proof.
  induction f as [|c r IH]; simpl; [reflexivity|].
  intros H. destruct (N.eqb_spec c sep) as [->|_]; [tauto|].
  rewrite IH by tauto. reflexivity.
Qed.

Lemma split_join (sep : N) (fs : list Js.str) :
  fs <> [] -> Forall (fun f => ~ In sep f) fs ->
  Js.split sep (Js.join sep fs) = fs.
Proof.
  induction fs as [|f fs IH]; [congruence|].
  intros _ H. inversion H as [|? ? Hf Hfs]; subst.
  destruct fs as [|g gs]; [apply split_without_sep, Hf|].
  change (Js.join sep (f :: g :: gs)) with (f ++ sep :: Js.join sep (g :: gs)).
  rewrite split_app, split_without_sep by assumption.
  rewrite IH by (trivial; discriminate). reflexivity.
Qed.

Lemma trim_subset (f : Js.str) (x : N) : In x (Js.trim f) -> In x f.
Proof.
  destruct (trim_Trimmed f) as (l & r & E & _).
  intros H. rewrite E, !in_app_iff. tauto.
Qed.

Lemma statements_trimmed (src s : Js.str) :
  In s (statements src) -> Js.trim s = s.
Proof.
  intros H. apply statements_in in H. destruct H as [_ [f [_ ->]]].
  apply trim_idempotent.
Qed.

Lemma statements_sep_free (src s : Js.str) :
  In s (statements src) -> ~ In semicolon s.
Proof.
  intros H. apply statements_in in H. destruct H as [_ [f [Hf ->]]].
  intros Hs. apply trim_subset in Hs.
  pose proof (split_no_sep semicolon src) as N.
  rewrite Forall_forall in N. exact (N f Hf Hs).
Qed.

(** X1. Every [;] separates, whatever surrounds it: the statements of two
    texts joined by a semicolon are those of the first followed by those of
    the second. *)
Theorem statements_concat (a b : Js.str) :
  statements (a ++ semicolon :: b) = statements a ++ statements b.
Proof.
  unfold statements. now rewrite split_app, map_app, filter_app.
Qed.

(** X2. A statement has no white space at either end, holds no [;] and is
    not the backslash followed by n. *)
Theorem statements_normal_form (src : Js.str) :
  Forall (fun s => Js.trim s = s /\ ~ In semicolon s /\ s <> escaped_newline)
         (statements src).
Proof.
  rewrite Forall_forall. intros s Hs.
  split; [eapply statements_trimmed, Hs|].
  split; [eapply statements_sep_free, Hs|].
  apply statements_in in Hs. destruct Hs as [K _].
  apply keep_inv in K. destruct K as (_ & _ & K).
  intros ->. discriminate K.
Qed.

Lemma statements_of_clean (l : list Js.str) :
  Forall (fun s => Js.trim s = s /\ ~ In semicolon s /\ keep s = true) l ->
  statements (Js.join semicolon l) = l.
Proof.
  intros H. unfold statements. destruct l as [|s l]; [reflexivity|].
  rewrite split_join;
    [|discriminate|eapply Forall_impl; [|exact H]; simpl; tauto].
  induction H as [|x xs (Ht & _ & Hk) _ IH]; [reflexivity|].
  simpl. rewrite Ht, Hk. f_equal. exact IH.
Qed.

(** X3. Splitting is idempotent: the statements of a text, joined with
    [;] and split again, are the same statements. *)
Theorem statements_join_statements (src : Js.str) :
  statements (Js.join semicolon (statements src)) = statements src.
Proof.
  apply statements_of_clean. rewrite Forall_forall. intros s Hs.
  split; [eapply statements_trimmed, Hs|].
  split; [eapply statements_sep_free, Hs|].
  apply statements_in in Hs. tauto.
Qed.

Lemma trimStart_ws (ws s : Js.str) :
  forallb Js.is_ws ws = true -> Js.trimStart (ws ++ s) = Js.trimStart s.
Proof.
  induction ws as [|c r IH]; simpl; [reflexivity|].
  rewrite andb_true_iff. intros [-> H]. apply IH, H.
Qed.

Lemma trimEnd_cons (c : N) (r : Js.str) :
  Js.is_ws c = false -> Js.trimEnd (c :: r) = c :: Js.trimEnd r.
Proof.
  intros Hc. unfold Js.trimEnd. simpl.
  rewrite (trimStart_snoc _ _ Hc), rev_app_distr. reflexivity.
Qed.

Lemma ws_sep_free (ws : Js.str) :
  forallb Js.is_ws ws = true -> ~ In semicolon ws.
Proof.
  rewrite forallb_forall. intros H Hs. specialize (H _ Hs). discriminate H.
Qed.

Lemma comment_fragment_unkept (ws body : Js.str) :
  forallb Js.is_ws ws = true ->
  ~ In semicolon body ->
  statements (ws ++ comment_marker ++ body) = [].
Proof.
  intros Hws Hbody. unfold statements. rewrite split_without_sep.
  - simpl map. unfold Js.trim. rewrite (trimStart_ws _ _ Hws).
    change (comment_marker ++ body) with (45 :: 45 :: body)%N.
    cbn [Js.trimStart]. change (Js.is_ws 45) with false. cbn iota.
    rewrite !trimEnd_cons by reflexivity.
    assert (K : keep (45 :: 45 :: Js.trimEnd body)%N = false)
      by (unfold keep; simpl; destruct (Js.trimEnd body); reflexivity).
    cbn [filter]. rewrite K. reflexivity.
  - rewrite !in_app_iff. intros [H|[H|H]].
    + exact (ws_sep_free _ Hws H).
    + vm_compute in H. intuition discriminate.
    + exact (Hbody H).
Qed.

(** X4. A fragment whose first characters after white space are [--] is
    dropped whole, with every line that follows the comment up to the next
    [;]: the text gives the statements of what precedes and of what follows
    the fragment. *)
Theorem comment_led_fragment_dropped (a ws body b : Js.str) :
  forallb Js.is_ws ws = true ->
  ~ In semicolon body ->
  statements (a ++ semicolon :: (ws ++ comment_marker ++ body) ++ semicolon :: b)
  = statements a ++ statements b.
Proof.
  intros Hws Hbody.
  pose proof (comment_fragment_unkept ws body Hws Hbody) as E.
  unfold statements in *.
  rewrite !split_app, !map_app, !filter_app, E. reflexivity.
Qed.

(** X5. A text gives at most one statement more than it has semicolons. *)
Theorem statements_count_bound (src : Js.str) :
  List.length (statements src) <= S (count_occ N.eq_dec src semicolon).
Proof.
  unfold statements.
  eapply Nat.le_trans; [apply filter_length_le|]. rewrite length_map.
  induction src as [|c r IH]; simpl; [lia|].
  destruct (N.eq_dec c semicolon) as [->|Hc].
  - rewrite N.eqb_refl. simpl. lia.
  - destruct (N.eqb_spec c semicolon); [contradiction|].
    destruct (Js.split semicolon r); simpl in *; lia.
Qed.

(** ** More on the run *)

Lemma statement_loop_calls (w : World) (rest : list Js.str) :
  forall (n i : nat) (t : trace) (fn : string) (sql : Js.str),
    In (Rpc fn sql) (snd (statement_loop w n i rest t)) ->
    In (Rpc fn sql) t \/ (fn = "exec_sql"%string /\ In sql rest).
Proof.
  induction rest as [|s rest IH]; intros n i t fn sql; simpl statement_loop.
  - simpl. tauto.
  - destruct (Js.truthy (Js.trim s)).
    + unfold bind at 1. unfold console_log at 1. unfold emit at 1.
      unfold bind at 1. unfold supabase_rpc. unfold bind at 1. unfold emit at 1.
      destruct (rpc w _ "exec_sql" s) as [[e|]|m]; simpl await.
      * unfold ret, console_log, emit. simpl snd. intros H.
        rewrite !in_app_iff in H. simpl in H.
        destruct H as [[[H|[H|[]]]|[H|[]]]|[H|[]]]; try discriminate; auto.
        injection H as <- <-. right. simpl. auto.
      * unfold ret. intros H. apply IH in H.
        destruct H as [H|[-> H]]; [|right; simpl; auto].
        rewrite !in_app_iff in H. simpl in H.
        destruct H as [[H|[H|[]]]|[H|[]]]; try discriminate; auto.
        injection H as <- <-. right. simpl. auto.
      * unfold throw. simpl snd. intros H.
        rewrite !in_app_iff in H. simpl in H.
        destruct H as [[H|[H|[]]]|[H|[]]]; try discriminate; auto.
        injection H as <- <-. right. simpl. auto.
    + intros H. apply IH in H. simpl. tauto.
Qed.

(** X6. Every call the run makes to the remote procedure interface is a
    call of [exec_sql] with one of the statements of the migration file. *)
Theorem calls_are_exec_sql_statements (w : World) (fn : string) (sql : Js.str) :
  In (Rpc fn sql) (fst (run w)) ->
  fn = "exec_sql"%string
  /\ exists text,
       readFileSync w migrationFile = FileText text
       /\ In sql (statements text).
Proof.
  run_cases w; intros HIn; try (exfalso; in_cases HIn; fail);
    assert (Hd : In (Rpc fn sql) d) by (in_cases HIn; assumption);
    match type of Hrun with
    | statement_loop w ?n ?i ?r ?t = _ =>
        assert (Hl := statement_loop_calls w r n i t fn sql)
    end;
    rewrite Hrun in Hl; cbn [snd] in Hl;
    (lapply Hl; [clear Hl; intros Hl|apply in_or_app; right; exact Hd]);
    (destruct Hl as [Hl|[-> Hl]];
     [ exfalso; in_cases Hl
     | split; [reflexivity|exists src; split; [reflexivity|exact Hl]] ]).
Qed.

Ltac in_trace := simpl In; rewrite ?in_app_iff; simpl In; tauto.

(** X7. When the migration file cannot be read, the run reports Failed
    with the message of the error, makes no call to the service and exits
    with status 1. *)
Theorem unreadable_file_fails (w : World) (m : string) :
  Js.truthy_opt (NEXT_PUBLIC_SUPABASE_API w) = true ->
  Js.truthy_opt (NEXT_PUBLIC_PUBLIC_API_KEY w) = true ->
  createClient w (NEXT_PUBLIC_SUPABASE_API w) (NEXT_PUBLIC_PUBLIC_API_KEY w)
  = None ->
  readFileSync w migrationFile = FileError m ->
  reported (fst (run w)) = Some Failed
  /\ In (ConsoleError (failure_line m)) (fst (run w))
  /\ submitted (fst (run w)) = []
  /\ ~ In FromSelectLimit (fst (run w))
  /\ snd (run w) = 1%Z.
Proof.
  run_cases w; intros Hu Hy Hcl Hf; try discriminate.
  injection Hf as <-.
  split; [reflexivity|]. split; [in_trace|]. split; [reflexivity|].
  split; [|reflexivity]. intros H. in_cases H.
Qed.

(** X8. When the client constructor throws, the script does nothing else:
    it prints nothing, reads no file and ends with status 1. *)
Theorem client_failure_is_silent (w : World) (m : string) :
  Js.truthy_opt (NEXT_PUBLIC_SUPABASE_API w) = true ->
  Js.truthy_opt (NEXT_PUBLIC_PUBLIC_API_KEY w) = true ->
  createClient w (NEXT_PUBLIC_SUPABASE_API w) (NEXT_PUBLIC_PUBLIC_API_KEY w)
  = Some m ->
  fst (run w)
  = [CreateClient (NEXT_PUBLIC_SUPABASE_API w) (NEXT_PUBLIC_PUBLIC_API_KEY w)]
  /\ snd (run w) = 1%Z.
Proof.
  intros Hu Hy Hcl. unfold_run. rewrite Hu, Hy. step. rewrite Hcl. step.
  split; reflexivity.
Qed.

(** X9. When the promise of an [exec_sql] call rejects, the probe is not
    made: the run reports Failed with the message of the rejection and
    exits with status 1. *)
Theorem rejected_statement_fails (w : World) (i : nat) (m : string) :
  i < List.length (submitted (fst (run w))) ->
  reply_of w [] (submitted (fst (run w))) i = Rejects m ->
  ~ In FromSelectLimit (fst (run w))
  /\ reported (fst (run w)) = Some Failed
  /\ In (ConsoleError (failure_line m)) (fst (run w))
  /\ snd (run w) = 1%Z.
Proof.
  run_cases w; try (simpl; intros Hi; exfalso; lia);
    rewrite Hsub, length_firstn, Nat.min_l by assumption; intros Hi Hm;
    rewrite reply_of_firstn in Hm by assumption;
    try (exfalso;
         exact (ends_normally_without_rejection _ _ _ _ _ Hok Hend _ _ Hi Hm)).
  destruct Hc as (k0 & -> & Hr).
  assert (i = k0) as ->.
  { destruct (Nat.eq_dec i k0) as [|Hne]; [assumption|].
    rewrite Hok in Hm by lia. discriminate. }
  assert (ml = m) as -> by congruence.
  split; [intros H; in_cases H; exact (Q4 H)|].
  split; [report; reflexivity|]. split; [in_trace|reflexivity].
Qed.

(** X10. When the promise of the probe rejects, the run reports Failed
    with the message of the rejection and exits with status 1. *)
Theorem rejected_probe_fails (w : World) (m : string) :
  In FromSelectLimit (fst (run w)) ->
  from_select_limit w (submitted (fst (run w))) = Rejects m ->
  reported (fst (run w)) = Some Failed
  /\ In (ConsoleError (failure_line m)) (fst (run w))
  /\ snd (run w) = 1%Z.
Proof.
  run_cases w; intros HIn; try (exfalso; absurd_in HIn; fail);
    intros Hp; try discriminate.
  injection Hp as <-.
  split; [report; reflexivity|]. split; [in_trace|reflexivity].
Qed.

(** X11. The exit status is 0 or 1, and it is 0 exactly when the run has
    reported Completed or ManualFallback. *)
Theorem exit_zero_iff_reported (w : World) :
  (snd (run w) = 0%Z \/ snd (run w) = 1%Z)
  /\ (snd (run w) = 0%Z <->
      reported (fst (run w)) = Some Completed
      \/ reported (fst (run w)) = Some ManualFallback).
Proof.
  run_cases w; (split; [auto|]); report;
    (split; [intros H; try discriminate H; auto
            |intros [H|H]; try discriminate H; reflexivity]).
Qed.

(** X12. A run prints at most one of the three headlines: the failure of
    line 94, the completion of line 82 and the manual guidance of line 72. *)
Theorem one_headline_at_most (w : World) :
  let t := fst (run w) in
  let failed := error_logged "❌ Migration failed:" t in
  let completed := logged "✅ Migration completed successfully!" t in
  let manual :=
    logged "📋 Please run the following SQL manually in your Supabase SQL Editor:" t in
  failed && completed = false
  /\ failed && manual = false
  /\ completed && manual = false.
Proof.
  run_cases w; cbv zeta; report; repeat split; reflexivity.
Qed.


Lemma unique_place {A} (x : A) (a b a' b' : list A) :
  ~ In x a -> ~ In x b ->
  a ++ x :: b = a' ++ x :: b' -> a = a' /\ b = b'.
Proof.
  revert a'. induction a as [|y a IH]; intros a' Ha Hb E.
  - destruct a' as [|y' a']; simpl in E.
    + injection E as <-. auto.
    + injection E as <- E. exfalso. apply Hb. rewrite E.
      apply in_or_app. right. left. reflexivity.
  - destruct a' as [|y' a']; simpl in E.
    + injection E as -> _. exfalso. apply Ha. left. reflexivity.
    + injection E as <- E. simpl in Ha.
      destruct (IH a') as [-> ->]; auto.
Qed.

(** X14. The probe is made at most once and is the last call of a run: no
    statement is submitted and no second probe is made after it. *)
Theorem probe_is_last_call (w : World) (t1 t2 : trace) :
  fst (run w) = t1 ++ FromSelectLimit :: t2 ->
  submitted t2 = [] /\ ~ In FromSelectLimit t2 /\ ~ In FromSelectLimit t1.
Proof.
  assert (Hnone : forall t : trace,
            ~ In FromSelectLimit t -> t = t1 ++ FromSelectLimit :: t2 -> False).
  { intros t Hn ->. apply Hn, in_or_app. right. left. reflexivity. }
  run_cases w; intros E;
    try (exfalso; refine (Hnone _ _ E); intros H; in_cases H; auto; fail);
    rewrite <- ?app_assoc in E; simpl app in E;
    match type of E with
    | ?e1 :: ?e2 :: ?e3 :: ?e4 :: ?e5 :: ?d ++ ?l :: FromSelectLimit :: ?b = _ =>
        assert (E' : (e1 :: e2 :: e3 :: e4 :: e5 :: d ++ [l])
                     ++ FromSelectLimit :: b
                     = t1 ++ FromSelectLimit :: t2)
          by (rewrite <- E; simpl; rewrite <- app_assoc; reflexivity);
        apply unique_place in E';
        [ destruct E' as [<- <-];
          split; [reflexivity|]; split; intros H; in_cases H; auto
        | intros H; in_cases H; auto
        | intros H; in_cases H ]
    end.
Qed.

Lemma attempts_zero (n i : nat) (rest : list Js.str) : attempts n i rest 0 = [].
Proof. destruct rest; reflexivity. Qed.

(** X15. On statements that pass the guard the loop writes, for each
    statement it submits, a progress line numbered from [i + 1] upwards and
    then the call; the warning of line 60 follows, as the last line, exactly
    when the last reply is an error object. *)
Theorem loop_progress (w : World) (rest : list Js.str) :
  forall (n i : nat) (t : trace),
  Forall (fun s => Js.truthy (Js.trim s) = true) rest ->
  exists (k : nat) (warned : bool),
    k <= List.length rest
    /\ snd (statement_loop w n i rest t)
       = t ++ attempts n i rest k
           ++ (if warned then [ConsoleLog rpc_warning] else [])
    /\ (warned = true <->
        exists k0 e, k = S k0
          /\ reply_of w (submitted t) rest k0 = Resolves (Some e)).
Proof.
  induction rest as [|s rest IH]; intros n i t Hg.
  - exists 0, false. simpl. rewrite app_nil_r.
    split; [lia|]. split; [reflexivity|].
    split; [discriminate|intros (k0 & e & H & _); discriminate].
  - inversion Hg as [|? ? Hs Hrest]; subst.
    simpl statement_loop. rewrite Hs.
    unfold bind at 1. unfold console_log at 1. unfold emit at 1.
    unfold bind at 1. unfold supabase_rpc. unfold bind at 1. unfold emit at 1.
    rewrite submitted_app. simpl (submitted [_]). rewrite app_nil_r.
    destruct (rpc w (submitted t) "exec_sql" s) as [[e|]|m] eqn:R; simpl await.
    + exists 1, true. unfold ret, console_log, emit. simpl snd.
      split; [simpl; lia|]. split.
      * simpl attempts. rewrite attempts_zero, <- !app_assoc. reflexivity.
      * split; [intros _|reflexivity].
        exists 0, e. split; [reflexivity|]. now rewrite reply_of_zero.
    + unfold ret.
      match goal with |- context [statement_loop w n (S i) rest ?t1] =>
        destruct (IH n (S i) t1 Hrest) as (k & warned & Hk & Hrun & Hw)
      end.
      rewrite !submitted_app in Hw. simpl in Hw. rewrite app_nil_r in Hw.
      exists (S k), warned. split; [simpl; lia|]. split.
      * rewrite Hrun. simpl attempts. rewrite <- !app_assoc. reflexivity.
      * rewrite Hw. split.
        -- intros (k0 & e & -> & Hr). exists (S k0), e.
           split; [reflexivity|]. now rewrite reply_of_cons.
        -- intros (k0 & e & [= <-] & Hr). destruct k as [|k0].
           ++ rewrite reply_of_zero in Hr. congruence.
           ++ exists k0, e. split; [reflexivity|].
              now rewrite <- reply_of_cons.
    + exists 1, false. unfold throw. simpl snd.
      split; [simpl; lia|]. split.
      * simpl attempts. rewrite attempts_zero, <- !app_assoc. reflexivity.
      * split; [discriminate|].
        intros (k0 & e & [= <-] & Hr). rewrite reply_of_zero in Hr. congruence.
Qed.

(** ** The further theorems at concrete inputs *)

Lemma comment_led_fragment_dropped_witness :
  statements (Js.lit "CREATE TABLE a (id int)" ++ semicolon
              :: (Js.lit " " ++ comment_marker
                  ++ Js.lit (String (ascii_of_nat 10) "CREATE INDEX i ON a(id)"))
              ++ semicolon :: Js.lit "DROP TABLE b")
  = statements (Js.lit "CREATE TABLE a (id int)")
    ++ statements (Js.lit "DROP TABLE b").
Proof.
  apply comment_led_fragment_dropped; [reflexivity|].
  vm_compute. intuition discriminate.
Defined.

Lemma calls_are_exec_sql_statements_witness :
  In (Rpc "exec_sql" (Js.lit "CREATE TABLE a (id int)")) (fst (run refusing_world))
  /\ exists text,
       readFileSync refusing_world migrationFile = FileText text
       /\ In (Js.lit "CREATE TABLE a (id int)") (statements text).
Proof.
  assert (H : In (Rpc "exec_sql" (Js.lit "CREATE TABLE a (id int)"))
                 (fst (run refusing_world))).
  { vm_compute. repeat (try (left; reflexivity); right). }
  split; [exact H|].
  apply (calls_are_exec_sql_statements refusing_world _ _ H).
Defined.

Lemma unreadable_file_fails_witness :
  readFileSync fileless_world migrationFile
  = FileError "ENOENT: no such file or directory"
  /\ reported (fst (run fileless_world)) = Some Failed.
Proof.
  split; [reflexivity|].
  apply (unreadable_file_fails fileless_world
           "ENOENT: no such file or directory"); reflexivity.
Defined.

Lemma client_failure_is_silent_witness :
  snd (run clientless_world) = 1%Z.
Proof.
  apply (client_failure_is_silent clientless_world "Invalid supabaseUrl");
    reflexivity.
Defined.

Lemma rejected_statement_fails_witness :
  1 < List.length (submitted (fst (run rejecting_world)))
  /\ ~ In FromSelectLimit (fst (run rejecting_world)).
Proof.
  assert (H : 1 < List.length (submitted (fst (run rejecting_world))))
    by (vm_compute; lia).
  assert (Hr : reply_of rejecting_world []
                 (submitted (fst (run rejecting_world))) 1
               = Rejects "fetch failed") by (vm_compute; reflexivity).
  split; [exact H|].
  exact (proj1 (rejected_statement_fails rejecting_world 1 "fetch failed" H Hr)).
Defined.

Lemma rejected_probe_fails_witness :
  In FromSelectLimit (fst (run probe_rejecting_world))
  /\ reported (fst (run probe_rejecting_world)) = Some Failed.
Proof.
  assert (H : In FromSelectLimit (fst (run probe_rejecting_world))).
  { vm_compute. repeat (try (left; reflexivity); right). }
  assert (Hp : from_select_limit probe_rejecting_world
                 (submitted (fst (run probe_rejecting_world)))
               = Rejects "fetch failed") by (vm_compute; reflexivity).
  split; [exact H|].
  exact (proj1 (rejected_probe_fails probe_rejecting_world "fetch failed" H Hp)).
Defined.


Lemma probe_is_last_call_witness :
  fst (run refusing_world)
  = firstn 9 (fst (run refusing_world))
    ++ FromSelectLimit :: skipn 10 (fst (run refusing_world))
  /\ submitted (skipn 10 (fst (run refusing_world))) = [].
Proof.
  assert (H : fst (run refusing_world)
              = firstn 9 (fst (run refusing_world))
                ++ FromSelectLimit :: skipn 10 (fst (run refusing_world)))
    by (vm_compute; reflexivity).
  split; [exact H|].
  apply (probe_is_last_call refusing_world _ _ H).
Defined.

Lemma loop_progress_witness :
  exists (k : nat) (warned : bool),
    k <= List.length (statements example_source)
    /\ snd (statement_loop refusing_world 2 0 (statements example_source) [])
       = [] ++ attempts 2 0 (statements example_source) k
           ++ (if warned then [ConsoleLog rpc_warning] else [])
    /\ (warned = true <->
        exists k0 e, k = S k0
          /\ reply_of refusing_world (submitted [])
                      (statements example_source) k0 = Resolves (Some e)).
Proof.
  apply (loop_progress refusing_world (statements example_source) 2 0 []).
  vm_compute. repeat constructor.
Defined.
